(** * QR scan page controller (src/app/qr-scan/page.tsx)

    A shallow embedding of the [QrScanPage] component: its React state and
    refs become one record, its handlers and effects become computations in a
    small state-and-exception monad, and the calls into the browser and into
    the decoding library take their outcome as an explicit argument.

    JavaScript strings are byte strings here; [string | undefined] is
    [option string], with the empty string kept apart from [undefined]
    because the page tells them apart ([??]) or not ([||], [!]) depending on
    the operator.  The clock is an argument of the one handler that reads
    it. *)

From Stdlib Require Import ZArith Ascii String DecimalString.
From stdpp Require Import base decidable option list strings gmap.

Module QrScanPage.

Local Open Scope string_scope.
Local Open Scope list_scope.

(** ** Browser and library data *)

(** [MediaDeviceInfo]: the three fields the page reads. *)
Record MediaDeviceInfo := {
  deviceId : string;
  kind : string;
  label : string
}.

(** A [MediaStreamTrack] is an object shared between the stream that lists it
    and whoever stops it; tracks are named by a number and their ended state
    lives in the page's store (field [ended] below). *)
Definition Track := nat.

Record MediaStream := { getTracks : list Track }.

(** The [<video>] element behind [videoRef]. *)
Record Video := {
  srcObject : option MediaStream;
  videoWidth : N;
  videoHeight : N
}.

(** A thrown or reported JavaScript value, as far as the page inspects it:
    [e?.message], [String(e)] and [e instanceof NotFoundException]. *)
Record JsError := {
  message : option string;
  asString : string;
  isNotFound : bool
}.

(** [Result] of the decoding library: only [getText()] is used. *)
Record DecodeResult := { getText : string }.

(** Calls the page makes on its [BrowserMultiFormatReader]. *)
Inductive ReaderCall :=
  | CallReset
  | CallDecode (device : option string).

(** The reader behind [readerRef]: the decode loops it currently runs on the
    video surface (each for a device, [None] for the library's own choice)
    and the history of calls made on it. *)
Record Reader := {
  loops : list (option string);
  calls : list ReaderCall
}.

(** What [link.click()] hands to the browser. *)
Record Download := {
  href : string;
  download : string
}.

(** ** The component's state *)

Record Page := {
  cameras : list MediaDeviceInfo;
  selectedDeviceId : option string;
  scanning : bool;
  resultText : string;
  error : string;
  capturedImage : string;
  videoRef : option Video;
  readerRef : option Reader;
  (* whether the last run of the [selectedDeviceId] effect returned its
     cleanup function *)
  effectCleanup : bool;
  (* tracks on which [stop()] has been called *)
  ended : gset Track;
  (* files handed to the browser for saving, oldest first *)
  saved : list Download
}.

Definition setCameras (x : list MediaDeviceInfo) (p : Page) : Page :=
  {| cameras := x; selectedDeviceId := selectedDeviceId p;
     scanning := scanning p; resultText := resultText p; error := error p;
     capturedImage := capturedImage p; videoRef := videoRef p;
     readerRef := readerRef p; effectCleanup := effectCleanup p;
     ended := ended p; saved := saved p |}.

Definition setSelectedDeviceId (x : option string) (p : Page) : Page :=
  {| cameras := cameras p; selectedDeviceId := x;
     scanning := scanning p; resultText := resultText p; error := error p;
     capturedImage := capturedImage p; videoRef := videoRef p;
     readerRef := readerRef p; effectCleanup := effectCleanup p;
     ended := ended p; saved := saved p |}.

Definition setScanning (x : bool) (p : Page) : Page :=
  {| cameras := cameras p; selectedDeviceId := selectedDeviceId p;
     scanning := x; resultText := resultText p; error := error p;
     capturedImage := capturedImage p; videoRef := videoRef p;
     readerRef := readerRef p; effectCleanup := effectCleanup p;
     ended := ended p; saved := saved p |}.

Definition setResultText (x : string) (p : Page) : Page :=
  {| cameras := cameras p; selectedDeviceId := selectedDeviceId p;
     scanning := scanning p; resultText := x; error := error p;
     capturedImage := capturedImage p; videoRef := videoRef p;
     readerRef := readerRef p; effectCleanup := effectCleanup p;
     ended := ended p; saved := saved p |}.

Definition setError (x : string) (p : Page) : Page :=
  {| cameras := cameras p; selectedDeviceId := selectedDeviceId p;
     scanning := scanning p; resultText := resultText p; error := x;
     capturedImage := capturedImage p; videoRef := videoRef p;
     readerRef := readerRef p; effectCleanup := effectCleanup p;
     ended := ended p; saved := saved p |}.

Definition setCapturedImage (x : string) (p : Page) : Page :=
  {| cameras := cameras p; selectedDeviceId := selectedDeviceId p;
     scanning := scanning p; resultText := resultText p; error := error p;
     capturedImage := x; videoRef := videoRef p;
     readerRef := readerRef p; effectCleanup := effectCleanup p;
     ended := ended p; saved := saved p |}.

Definition setVideoRef (x : option Video) (p : Page) : Page :=
  {| cameras := cameras p; selectedDeviceId := selectedDeviceId p;
     scanning := scanning p; resultText := resultText p; error := error p;
     capturedImage := capturedImage p; videoRef := x;
     readerRef := readerRef p; effectCleanup := effectCleanup p;
     ended := ended p; saved := saved p |}.

Definition setReaderRef (x : option Reader) (p : Page) : Page :=
  {| cameras := cameras p; selectedDeviceId := selectedDeviceId p;
     scanning := scanning p; resultText := resultText p; error := error p;
     capturedImage := capturedImage p; videoRef := videoRef p;
     readerRef := x; effectCleanup := effectCleanup p;
     ended := ended p; saved := saved p |}.

Definition setEffectCleanup (x : bool) (p : Page) : Page :=
  {| cameras := cameras p; selectedDeviceId := selectedDeviceId p;
     scanning := scanning p; resultText := resultText p; error := error p;
     capturedImage := capturedImage p; videoRef := videoRef p;
     readerRef := readerRef p; effectCleanup := x;
     ended := ended p; saved := saved p |}.

Definition setEnded (x : gset Track) (p : Page) : Page :=
  {| cameras := cameras p; selectedDeviceId := selectedDeviceId p;
     scanning := scanning p; resultText := resultText p; error := error p;
     capturedImage := capturedImage p; videoRef := videoRef p;
     readerRef := readerRef p; effectCleanup := effectCleanup p;
     ended := x; saved := saved p |}.

Definition setSaved (x : list Download) (p : Page) : Page :=
  {| cameras := cameras p; selectedDeviceId := selectedDeviceId p;
     scanning := scanning p; resultText := resultText p; error := error p;
     capturedImage := capturedImage p; videoRef := videoRef p;
     readerRef := readerRef p; effectCleanup := effectCleanup p;
     ended := ended p; saved := x |}.

(** ** Computations: state that survives a throw *)

Inductive Result (A : Type) :=
  | Returns (a : A) (p : Page)
  | Throws (e : JsError) (p : Page).
Arguments Returns {A} a p.
Arguments Throws {A} e p.

Definition M (A : Type) := Page -> Result A.

Definition ret {A} (a : A) : M A := fun p => Returns a p.

Definition bind {A B} (c : M A) (k : A -> M B) : M B :=
  fun p => match c p with
           | Returns a p' => k a p'
           | Throws e p' => Throws e p'
           end.

Definition throw {A} (e : JsError) : M A := fun p => Throws e p.

(** [try { c } catch (e) { h e }] *)
Definition try_catch {A} (c : M A) (h : JsError -> M A) : M A :=
  fun p => match c p with
           | Returns a p' => Returns a p'
           | Throws e p' => h e p'
           end.

Definition gets {A} (f : Page -> A) : M A := fun p => Returns (f p) p.
Definition modify (f : Page -> Page) : M unit := fun p => Returns tt (f p).

(** The state a computation leaves, however it ends. *)
Definition final {A} (r : Result A) : Page :=
  match r with Returns _ p => p | Throws _ p => p end.

Definition returned {A} (r : Result A) : bool :=
  match r with Returns _ _ => true | Throws _ _ => false end.

Declare Scope js_scope.
Delimit Scope js_scope with js.
Notation "x <- c ;; k" := (bind c (fun x => k))
  (at level 100, c at next level, right associativity) : js_scope.
Notation "c ;; k" := (bind c (fun _ => k))
  (at level 100, right associativity) : js_scope.
Local Open Scope js_scope.

(** [xs.forEach(f)] *)
Fixpoint forEach {A} (xs : list A) (f : A -> M unit) : M unit :=
  match xs with
  | [] => ret tt
  | x :: xs' => f x ;; forEach xs' f
  end.

(** JavaScript truthiness of a [string | undefined]. *)
Definition truthy (x : option string) : bool :=
  match x with
  | Some s => negb (String.eqb s "")
  | None => false
  end.

(** [a || b] on [string | undefined]. *)
Definition js_or (a b : option string) : option string :=
  if truthy a then a else b.

(** [e?.message || String(e)] *)
Definition describe (e : JsError) : string :=
  if truthy (message e) then default "" (message e) else asString e.

(** ** The decoding library and the media tracks *)

(** [t.stop()]; the browser's [stop()] does not throw. *)
Definition track_stop (t : Track) : M unit :=
  modify (fun p => setEnded ({[ t ]} ∪ ended p) p).

(** Modelled from the spec: [reset()] of the decoding library, whose source
    is not part of this repository.  The spec's interface (section 6) is
    "reset/release decoder", and section 4.2 has [stopScanning] "release the
    decoder's internal resources": a reset that returns has released the
    reader's loops; one that throws may or may not have got that far.
    Statements about the loops name the release they rely on. *)
Inductive ResetOutcome :=
  | ResetReturns
  | ResetThrows (e : JsError) (released : bool).

(** Modelled from the spec: [reader.reset()] on the reader in [readerRef],
    with the outcome above; the call is recorded in the reader's history. *)
Definition reader_reset (o : ResetOutcome) (r : Reader) : M unit :=
  let log := calls r ++ [CallReset] in
  match o with
  | ResetReturns =>
      modify (setReaderRef (Some {| loops := []; calls := log |}))
  | ResetThrows e released =>
      modify (setReaderRef
                (Some {| loops := if released then [] else loops r;
                         calls := log |})) ;;
      throw e
  end.

(** ** stopScanning (lines 94-105) *)

Definition stopScanning (o : ResetOutcome) : M unit :=
  modify (setScanning false) ;;
  try_catch
    (reader <- gets readerRef ;;
     match reader with
     | Some r => reader_reset o r
     | None => ret tt
     end)
    (fun _ => ret tt) ;;
  video <- gets videoRef ;;
  let stream := video ≫= srcObject in
  match stream with
  | Some stream =>
      forEach (getTracks stream) track_stop ;;
      match video with
      | Some v =>
          modify (setVideoRef
                    (Some {| srcObject := None; videoWidth := videoWidth v;
                             videoHeight := videoHeight v |}))
      | None => ret tt
      end
  | None => ret tt
  end.

(** ** startScanning (lines 68-92) *)

(** Modelled from the spec: [decodeFromVideoDevice] of the decoding library,
    whose source is not part of this repository.  The spec's interface
    (section 6) is "bind decode loop to device+surface with callback", and
    section 4.2 speaks of a binding that "throws synchronously".  A call
    ends in one of three ways: the loop comes to run on the surface with the
    stream the library acquired ([DecodeStarts]; the library does this after
    the call has returned, the model takes it at the call); the call throws
    ([DecodeThrows]); or the call returns and the library fails afterwards,
    which nobody is told ([DecodeFailsLater]: no loop, and the [catch] of
    the page does not run).  Binding is what the page asks for and no more:
    a call made while a loop is running adds a loop, and only [reset()]
    releases loops; statements about the loops are made where no loop was
    running before the call, so that they do not rest on this. *)
Inductive DecodeOutcome :=
  | DecodeStarts (stream : MediaStream)
  | DecodeThrows (e : JsError)
  | DecodeFailsLater.

(** Modelled from the spec: the call itself, with the outcome above; it is
    recorded in the reader's history whatever its outcome. *)
Definition decodeFromVideoDevice (o : DecodeOutcome) (device : option string)
    (r : Reader) (v : Video) : M unit :=
  let log := calls r ++ [CallDecode device] in
  match o with
  | DecodeStarts stream =>
      modify (setReaderRef
                (Some {| loops := loops r ++ [device]; calls := log |})) ;;
      modify (setVideoRef
                (Some {| srcObject := Some stream; videoWidth := videoWidth v;
                         videoHeight := videoHeight v |}))
  | DecodeThrows e =>
      modify (setReaderRef (Some {| loops := loops r; calls := log |})) ;;
      throw e
  | DecodeFailsLater =>
      modify (setReaderRef (Some {| loops := loops r; calls := log |}))
  end.

(** The callback handed to the library (lines 78-86): [err] is [None] for a
    falsy second argument. *)
Definition onDecode (result : option DecodeResult) (err : option JsError)
    : M unit :=
  match result with
  | Some res => modify (setResultText (getText res))
  | None => ret tt
  end ;;
  match err with
  | Some e =>
      if negb (isNotFound e) then modify (setError (describe e)) else ret tt
  | None => ret tt
  end.

(** [deviceId ?? null] leaves an empty string as it is, so the device handed
    to the library is the argument itself.  The two refs are not written
    between the guard and the call, so the values read by the guard are the
    ones the call uses. *)
Definition startScanning (o : DecodeOutcome) (deviceId : option string)
    : M unit :=
  video <- gets videoRef ;;
  reader <- gets readerRef ;;
  match video, reader with
  | Some v, Some r =>
      modify (setError "") ;;
      modify (setResultText "") ;;
      try_catch
        (modify (setScanning true) ;;
         decodeFromVideoDevice o deviceId r v)
        (fun e =>
           modify (setError (describe e)) ;;
           modify (setScanning false))
  | _, _ => ret tt
  end.

(** ** The selectedDeviceId effect (lines 60-66) and handleDeviceChange *)

(** The effect body; it records whether it returned the cleanup. *)
Definition selectedDeviceEffect (o : DecodeOutcome) : M unit :=
  sel <- gets selectedDeviceId ;;
  if truthy sel then
    startScanning o sel ;;
    modify (setEffectCleanup true)
  else
    modify (setEffectCleanup false).

(** [setSelectedDeviceId(newId)] and the render it causes: an unchanged value
    re-runs nothing; a changed one runs the previous cleanup, if the previous
    run returned one, and then the effect body. *)
Definition changeSelectedDeviceId (newId : option string)
    (r : ResetOutcome) (o : DecodeOutcome) : M unit :=
  old <- gets selectedDeviceId ;;
  if decide (newId = old) then ret tt
  else
    modify (setSelectedDeviceId newId) ;;
    cleanup <- gets effectCleanup ;;
    (if cleanup then stopScanning r else ret tt) ;;
    selectedDeviceEffect o.

(** [e.target.value || undefined] *)
Definition handleDeviceChange (value : string)
    (r : ResetOutcome) (o : DecodeOutcome) : M unit :=
  changeSelectedDeviceId (if String.eqb value "" then None else Some value) r o.

(** ** initDevices (lines 28-57) *)

Definition lower_ascii (c : ascii) : ascii :=
  let n := N_of_ascii c in
  if ((65 <=? n) && (n <=? 90))%N then ascii_of_N (n + 32) else c.

Fixpoint lower (s : string) : string :=
  match s with
  | EmptyString => EmptyString
  | String c s' => String (lower_ascii c) (lower s')
  end.

Fixpoint startsWith (w s : string) : bool :=
  match w, s with
  | EmptyString, _ => true
  | String a w', String b s' => Ascii.eqb a b && startsWith w' s'
  | String _ _, EmptyString => false
  end.

Fixpoint includes (w s : string) : bool :=
  startsWith w s ||
  match s with
  | EmptyString => false
  | String _ s' => includes w s'
  end.

(** [/back|rear|environment/i.test(label)].  The pattern is lower-case ASCII,
    and under the [i] flag a character outside ASCII never matches an ASCII
    letter, so the test is a search for one of the three words in the label
    with its ASCII capitals lowered. *)
Definition rearCamera (lbl : string) : bool :=
  existsb (fun w => includes w (lower lbl)) ["back"; "rear"; "environment"].

(** [backCam?.deviceId || videoInputs[0]?.deviceId] (lines 44-45) *)
Definition defaultDeviceId (videoInputs : list MediaDeviceInfo)
    : option string :=
  let backCam := find (fun d => rearCamera (label d)) videoInputs in
  js_or (deviceId <$> backCam) (deviceId <$> head videoInputs).

Inductive InitOutcome :=
  | NoGetUserMedia
  | GetUserMediaRejects (e : JsError)
  | EnumerateRejects (tmp : MediaStream) (e : JsError)
  | Enumerated (tmp : MediaStream) (devices : list MediaDeviceInfo).

(** The state updates of the resolved branch are applied by the render that
    follows the function's continuation, so the [finally] block runs before
    the effect that the new selection triggers. *)
Definition initDevices (cancelled : bool) (io : InitOutcome)
    (r : ResetOutcome) (o : DecodeOutcome) : M unit :=
  match io with
  | NoGetUserMedia =>
      modify (setError "This browser does not support camera access.")
  | GetUserMediaRejects e =>
      if cancelled then ret tt else modify (setError (describe e))
  | EnumerateRejects tmp e =>
      forEach (getTracks tmp) track_stop ;;
      if cancelled then ret tt else modify (setError (describe e))
  | Enumerated tmp devices =>
      forEach (getTracks tmp) track_stop ;;
      if cancelled then ret tt
      else
        let videoInputs := filter (fun d => kind d = "videoinput") devices in
        modify (setCameras videoInputs) ;;
        changeSelectedDeviceId (defaultDeviceId videoInputs) r o
  end.

(** ** captureImage, downloadImage and the Clear button (lines 112-139, 214) *)

(** What the canvas does for one capture: no 2d context, a throw somewhere in
    the drawing calls, or the PNG data URL. *)
Inductive CanvasOutcome :=
  | NoContext
  | CanvasThrows (e : JsError)
  | DataUrl (url : string).

Definition captureImage (c : CanvasOutcome) : M unit :=
  video <- gets videoRef ;;
  sc <- gets scanning ;;
  match video with
  | None => ret tt
  | Some _ =>
      if negb sc then ret tt
      else
        try_catch
          match c with
          | NoContext => modify (setError "Cannot create canvas context")
          | CanvasThrows e => throw e
          | DataUrl url => modify (setCapturedImage url)
          end
          (fun e => modify (setError (describe e)))
  end.

(** [`${n}`] for an integer [n] such as [Date.now()] returns. *)
Definition show_int (n : Z) : string := NilZero.string_of_int (Z.to_int n).

(** [now] is what [Date.now()] returns at the call. *)
Definition downloadImage (now : Z) : M unit :=
  img <- gets capturedImage ;;
  if String.eqb img "" then ret tt
  else
    modify (fun p =>
      setSaved (saved p ++
                [{| href := img;
                    download := "capture-" +:+ show_int now +:+ ".png" |}]) p).

Definition clearImage : M unit := modify (setCapturedImage "").

(** ** Mounting and teardown (lines 7-25) *)

Definition unmounted : Page :=
  {| cameras := []; selectedDeviceId := None; scanning := false;
     resultText := ""; error := ""; capturedImage := "";
     videoRef := None; readerRef := None; effectCleanup := false;
     ended := ∅; saved := [] |}.

(** After the first commit and its effects: the video element is in
    [videoRef], the reader has been created, and the [selectedDeviceId]
    effect has returned early on [undefined]. *)
Definition mounted (v : Video) : Page :=
  setReaderRef (Some {| loops := []; calls := [] |})
    (setVideoRef (Some v) unmounted).

(** The cleanup of the first effect; its own [reset()] is outside any try. *)
Definition teardown (r1 r2 : ResetOutcome) : M unit :=
  stopScanning r1 ;;
  reader <- gets readerRef ;;
  match reader with
  | Some r => reader_reset r2 r
  | None => ret tt
  end ;;
  modify (setReaderRef None).

(** ** Markup: the camera options (lines 154-158) *)

(** The text of a camera option (line 156):
    [cam.label || `Camera ${cam.deviceId.substring(0, 6)}...`].  Device ids
    are ASCII, so the first six characters are the first six bytes. *)
Definition optionLabel (cam : MediaDeviceInfo) : string :=
  if String.eqb (label cam) "" then
    "Camera " +:+ substring 0 6 (deviceId cam) +:+ "..."
  else label cam.

(** ** The page as a machine driven by events *)

Inductive Event :=
  | DevicesReady (io : InitOutcome) (r : ResetOutcome) (o : DecodeOutcome)
  | ClickStart (o : DecodeOutcome)
  | ClickStop (r : ResetOutcome)
  | SelectDevice (value : string) (r : ResetOutcome) (o : DecodeOutcome)
  | Frame (result : option DecodeResult) (err : option JsError)
  | ClickCapture (c : CanvasOutcome)
  | ClickDownload
  | ClickClear.

Definition isEmpty {A} (l : list A) : bool :=
  match l with [] => true | _ => false end.

(** The [disabled] attributes and conditional panels of the markup (lines
    147-218); a frame callback needs a running loop. *)
Definition enabled (ev : Event) (p : Page) : bool :=
  match ev with
  | DevicesReady _ _ _ => true
  | ClickStart _ => negb (scanning p || isEmpty (cameras p))
  | ClickStop _ => scanning p
  | SelectDevice value _ _ =>
      negb (isEmpty (cameras p)) &&
      bool_decide (value ∈ deviceId <$> cameras p)
  | Frame _ _ =>
      match readerRef p with
      | Some r => negb (isEmpty (loops r))
      | None => false
      end
  | ClickCapture _ => scanning p
  | ClickDownload | ClickClear => negb (String.eqb (capturedImage p) "")
  end.

Definition handle (now : Z) (ev : Event) : M unit :=
  match ev with
  | DevicesReady io r o => initDevices false io r o
  | ClickStart o => sel <- gets selectedDeviceId ;; startScanning o sel
  | ClickStop r => stopScanning r
  | SelectDevice value r o => handleDeviceChange value r o
  | Frame result err => onDecode result err
  | ClickCapture c => captureImage c
  | ClickDownload => downloadImage now
  | ClickClear => clearImage
  end.

(** One event, handled at clock reading [now]. *)
Definition step (p : Page) (tev : Z * Event) : Page :=
  if enabled tev.2 p then final (handle tev.1 tev.2 p) else p.

Definition run (trace : list (Z * Event)) (p : Page) : Page :=
  foldl step p trace.

(** ** Vocabulary of the statements *)

(** Whether a call of [reset()] got as far as releasing the loops. *)
Definition releases (o : ResetOutcome) : bool :=
  match o with ResetReturns => true | ResetThrows _ released => released end.

(** The reader after one call of [reset()]. *)
Definition afterReset (o : ResetOutcome) (r : Reader) : Reader :=
  {| loops := if releases o then [] else loops r;
     calls := calls r ++ [CallReset] |}.

(** The video element with its stream reference cleared. *)
Definition detached (v : Video) : Video :=
  {| srcObject := None; videoWidth := videoWidth v;
     videoHeight := videoHeight v |}.

(** The tracks of the stream attached to the video surface, if any. *)
Definition attachedTracks (p : Page) : list Track :=
  match videoRef p ≫= srcObject with
  | Some stream => getTracks stream
  | None => []
  end.

(** The page without the reader's internals: React state, the surface, the
    track store and the saved files. *)
Definition outsideReader (p : Page) : Page := setReaderRef None p.

(** The loops currently bound to the surface. *)
Definition boundLoops (p : Page) : list (option string) :=
  match readerRef p with
  | Some r => loops r
  | None => []
  end.

(** The calls made on the reader so far. *)
Definition readerCalls (p : Page) : list ReaderCall :=
  match readerRef p with
  | Some r => calls r
  | None => []
  end.

(** The tracks of the temporary stream [initDevices] acquired, if it got that
    far. *)
Definition temporaryTracks (io : InitOutcome) : list Track :=
  match io with
  | EnumerateRejects tmp _ | Enumerated tmp _ => getTracks tmp
  | _ => []
  end.

(** [devices.filter(d => d.kind === 'videoinput')] *)
Definition videoInputsOf (devices : list MediaDeviceInfo) : list MediaDeviceInfo :=
  filter (fun d => kind d = "videoinput") devices.

(** The file name [downloadImage] builds at clock reading [now]. *)
Definition savedName (now : Z) : string :=
  "capture-" +:+ show_int now +:+ ".png".

(** ** Invariants of the event machine *)





(** Both refs are set. *)
Definition RefInv (p : Page) : Prop :=
  is_Some (videoRef p) ∧ is_Some (readerRef p).





(** ** Sample data for the concrete runs *)

Definition cam (id lbl : string) : MediaDeviceInfo :=
  {| deviceId := id; kind := "videoinput"; label := lbl |}.

Definition sampleVideo : Video :=
  {| srcObject := None; videoWidth := 640; videoHeight := 480 |}.

Definition sampleStream (t : Track) : MediaStream := {| getTracks := [t] |}.

Definition sampleUrl : string := "data:image/png;base64,iVBORw0KGgo=".

Definition busyError : JsError :=
  {| message := Some "Could not start video source";
     asString := "NotReadableError: Could not start video source";
     isNotFound := false |}.

Definition notFoundError : JsError :=
  {| message := None; asString := "NotFoundException"; isNotFound := true |}.

(** The device list of the specification's end-to-end scenario. *)
Definition frontAndBack : list MediaDeviceInfo :=
  [cam "CamA" "Front Camera"; cam "CamB" "Back Camera (environment)"].

(** The page after enumeration of [frontAndBack] has auto-started a scan. *)
Definition scanningPage : Page :=
  run [(0%Z, DevicesReady (Enumerated (sampleStream 0) frontAndBack)
               ResetReturns (DecodeStarts (sampleStream 1)))]
      (mounted sampleVideo).

(** The scanning page as the unmount cleanup finds it: React has already
    cleared [videoRef]. *)
Definition unmountingPage : Page := setVideoRef None scanningPage.

(** The end-to-end scenario of the specification: enumeration, a decoded
    frame, then a change to the front camera. *)
Definition decodeThenSwitch : list (Z * Event) :=
  [(0%Z, DevicesReady (Enumerated (sampleStream 0) frontAndBack)
           ResetReturns (DecodeStarts (sampleStream 1)));
   (1%Z, Frame (Some {| getText := "HELLO" |}) None);
   (2%Z, SelectDevice "CamA" ResetReturns (DecodeStarts (sampleStream 2)))].

(** A capture at clock reading 1000 and a download at clock reading 2000. *)
Definition captureThenDownload : list (Z * Event) :=
  [(1000%Z, ClickCapture (DataUrl sampleUrl));
   (2000%Z, ClickDownload)].

(** An enumeration without any camera. *)
Definition micOnly : list MediaDeviceInfo :=
  [{| deviceId := "Mic1"; kind := "audioinput"; label := "Microphone" |};
   {| deviceId := "Spk1"; kind := "audiooutput"; label := "Speakers" |}].

Definition deniedError : JsError :=
  {| message := Some "Permission denied";
     asString := "NotAllowedError: Permission denied"; isNotFound := false |}.

(** A camera without a label. *)
Definition shortIdCam : MediaDeviceInfo := cam "ab12" "".

(** ** Facts about the monad and the track store *)

Lemma forEach_track_stop (ts : list Track) (p : Page) :
  forEach ts track_stop p = Returns tt (setEnded (list_to_set ts ∪ ended p) p).
Proof.
  revert p. induction ts as [|t ts IH]; intros p.
  - destruct p; unfold ret, setEnded; cbn. by rewrite (left_id_L ∅ (∪)).
  - cbn [forEach]. unfold bind at 1. cbn. rewrite IH. f_equal.
    unfold setEnded; cbn. f_equal.
    by rewrite (assoc_L (∪)), (comm_L (∪) _ {[t]}).
Qed.

Lemma reader_reset_throws (e : JsError) (released : bool) (r : Reader) (p : Page) :
  reader_reset (ResetThrows e released) r p =
  Throws e (setReaderRef (Some (afterReset (ResetThrows e released) r)) p).
Proof. reflexivity. Qed.

(** ** stopScanning *)

(** The whole effect of [stopScanning], field by field. *)
Lemma stopScanning_eq (o : ResetOutcome) (p : Page) :
  stopScanning o p =
  Returns tt
    {| cameras := cameras p; selectedDeviceId := selectedDeviceId p;
       scanning := false; resultText := resultText p; error := error p;
       capturedImage := capturedImage p;
       videoRef := detached <$> videoRef p;
       readerRef := afterReset o <$> readerRef p;
       effectCleanup := effectCleanup p;
       ended := list_to_set (attachedTracks p) ∪ ended p;
       saved := saved p |}.
Proof.
  destruct p as [cs sel sc rt er ci [[[s|] w h]|] [r|] ec en sv];
    destruct o as [|e [|]];
    unfold stopScanning, attachedTracks, afterReset, detached, bind,
      try_catch, gets, modify, ret, throw; cbn;
    rewrite ?forEach_track_stop; cbn.
  all: unfold setEnded, setVideoRef, setReaderRef, setScanning; cbn.
  all: rewrite ?(left_id_L ∅ (∪)); reflexivity.
Qed.

(** C3: after [stopScanning], whatever the reset did, the video surface is
    the same element with its stream reference cleared, and every track of
    the stream that was attached before the call has been stopped. *)
Theorem stopScanning_clears_surface (o : ResetOutcome) (p : Page) :
  let p' := final (stopScanning o p) in
  videoRef p' = detached <$> videoRef p ∧
  videoRef p' ≫= srcObject = None ∧
  Forall (fun t => t ∈ ended p') (attachedTracks p).
Proof.
  rewrite stopScanning_eq. cbn. split_and!.
  - reflexivity.
  - by destruct (videoRef p).
  - apply Forall_forall. intros t Ht. apply elem_of_union_l.
    by apply elem_of_list_to_set.
Qed.

(** C10: [stopScanning] is total and silent.  From every page and for every
    way the reader's reset can end, a throw included, it returns to its
    caller with [scanning] false and [error] untouched, and the cleanup of
    the surface has run: no stream is attached and the tracks of the stream
    that was attached are stopped. *)
Theorem stopScanning_total_silent (o : ResetOutcome) (p : Page) :
  ∃ p', stopScanning o p = Returns tt p' ∧
        scanning p' = false ∧
        error p' = error p ∧
        videoRef p' ≫= srcObject = None ∧
        Forall (fun t => t ∈ ended p') (attachedTracks p).
Proof.
  eexists. split; [apply stopScanning_eq|]. cbn. split_and!; try reflexivity.
  - by destruct (videoRef p).
  - apply Forall_forall. intros t Ht. apply elem_of_union_l.
    by apply elem_of_list_to_set.
Qed.

Lemma detached_idemp (v : option Video) :
  detached <$> (detached <$> v) = detached <$> v.
Proof. by destruct v. Qed.

Lemma detached_none (v : option Video) :
  v ≫= srcObject = None → detached <$> v = v.
Proof. destruct v as [[[s|] w h]|]; cbn; by try discriminate. Qed.

(** C2: [stopScanning] is idempotent.  Both calls return; after the first
    one [scanning] is false and no stream is attached; the second call, for
    any outcome of its reset, leaves everything outside the reader as the
    first call left it, and with the same reset outcome the bound loops are
    the same too.  On an idle page with no stream attached the call changes
    nothing but the reader it resets. *)
Theorem stopScanning_idempotent (o1 o2 : ResetOutcome) (p : Page) :
  let p1 := final (stopScanning o1 p) in
  let p2 := final (stopScanning o2 p1) in
  (returned (stopScanning o1 p) = true ∧
   returned (stopScanning o2 p1) = true) ∧
  (scanning p1 = false ∧ videoRef p1 ≫= srcObject = None) ∧
  outsideReader p2 = outsideReader p1 ∧
  boundLoops (final (stopScanning o1 p1)) = boundLoops p1 ∧
  (scanning p = false → videoRef p ≫= srcObject = None →
   final (stopScanning o1 p) = setReaderRef (afterReset o1 <$> readerRef p) p).
Proof.
  cbn zeta. rewrite !stopScanning_eq. cbn. split_and!; try reflexivity.
  - by destruct (videoRef p).
  - unfold outsideReader, setReaderRef, attachedTracks; cbn.
    rewrite detached_idemp.
    replace ((detached <$> videoRef p) ≫= srcObject) with (@None MediaStream)
      by (by destruct (videoRef p)).
    cbn. by rewrite (left_id_L ∅ (∪)).
  - unfold boundLoops; cbn. destruct (readerRef p) as [r|]; cbn; [|done].
    unfold afterReset; cbn. by destruct (releases o1).
  - intros Hsc Hv. unfold setReaderRef, attachedTracks. rewrite Hv.
    cbn. rewrite (left_id_L ∅ (∪)), (detached_none _ Hv).
    destruct p; cbn in *. by subst.
Qed.

Lemma stopScanning_idempotent_witness :
  scanning (mounted sampleVideo) = false ∧
  videoRef (mounted sampleVideo) ≫= srcObject = None ∧
  final (stopScanning ResetReturns (mounted sampleVideo)) =
    setReaderRef (afterReset ResetReturns <$> readerRef (mounted sampleVideo))
      (mounted sampleVideo).
Proof.
  pose proof (stopScanning_idempotent ResetReturns ResetReturns
                (mounted sampleVideo)) as H.
  cbv zeta in H. destruct H as (_ & _ & _ & _ & H).
  split; [reflexivity|]. split; [reflexivity|]. apply H; reflexivity.
Defined.

(** ** startScanning *)

Lemma startScanning_guard (o : DecodeOutcome) (dev : option string) (p : Page) :
  videoRef p = None ∨ readerRef p = None → startScanning o dev p = Returns tt p.
Proof.
  intros H. unfold startScanning, bind, gets. cbn.
  destruct (videoRef p), (readerRef p); try reflexivity. by destruct H.
Qed.

(** [startScanning] on any page: when a video surface is attached and the
    reader exists, it returns with [resultText] cleared; if the library
    starts the loop, [error] is cleared, [scanning] is true and the loop is
    bound; if the library throws at the call, [error] holds the description
    of what was thrown, [scanning] is false and no loop was added; if the
    library fails after the call, the page is as after a start, with no
    loop.  When the surface or the reader is missing the call does
    nothing. *)
Lemma startScanning_spec (o : DecodeOutcome) (dev : option string) (p : Page) :
  (∀ v r, videoRef p = Some v → readerRef p = Some r →
     ∃ p', startScanning o dev p = Returns tt p' ∧
           resultText p' = "" ∧
           match o with
           | DecodeStarts stream =>
               error p' = "" ∧ scanning p' = true ∧
               boundLoops p' = loops r ++ [dev] ∧
               videoRef p' ≫= srcObject = Some stream
           | DecodeThrows e =>
               error p' = describe e ∧ scanning p' = false ∧
               boundLoops p' = loops r
           | DecodeFailsLater =>
               error p' = "" ∧ scanning p' = true ∧
               boundLoops p' = loops r ∧ videoRef p' = videoRef p
           end) ∧
  (videoRef p = None ∨ readerRef p = None →
     startScanning o dev p = Returns tt p).
Proof.
  split; [|apply startScanning_guard].
  intros v r Hv Hr. unfold startScanning, bind, gets. cbn. rewrite Hv, Hr.
  destruct o as [stream|e|]; cbn; eexists; (split; [reflexivity|]); cbn; done.
Qed.

(** ** The decode callback *)

(** C6: a callback that reports only the not-found condition leaves the page
    as it was, so neither [error] nor [resultText] changes. *)
Theorem onDecode_not_found (e : JsError) (p : Page) :
  isNotFound e = true → onDecode None (Some e) p = Returns tt p.
Proof. intros He. unfold onDecode, bind, ret. cbn. by rewrite He. Qed.

Lemma onDecode_not_found_witness :
  isNotFound notFoundError = true ∧
  onDecode None (Some notFoundError) scanningPage = Returns tt scanningPage.
Proof.
  split; [reflexivity|].
  apply (onDecode_not_found notFoundError scanningPage). reflexivity.
Defined.

(** C7: a callback that delivers a payload and no error returns, sets
    [resultText] to exactly the payload and changes nothing else, so [error]
    is as before. *)
Theorem onDecode_payload (res : DecodeResult) (p : Page) :
  let p' := final (onDecode (Some res) None p) in
  returned (onDecode (Some res) None p) = true ∧
  resultText p' = getText res ∧
  error p' = error p ∧
  p' = setResultText (getText res) p.
Proof. cbn. done. Qed.

Example onDecode_ABC123 (p : Page) :
  resultText (final (onDecode (Some {| getText := "ABC123" |}) None p)) =
  "ABC123".
Proof. reflexivity. Qed.

(** ** Capture and download *)

(** C8: with [scanning] false, [captureImage] returns without changing the
    page: no image is stored and no error is recorded or thrown. *)
Theorem captureImage_idle (c : CanvasOutcome) (p : Page) :
  scanning p = false → captureImage c p = Returns tt p.
Proof.
  intros Hs. unfold captureImage, bind, gets. cbn. rewrite Hs.
  by destruct (videoRef p).
Qed.

Lemma captureImage_idle_witness :
  scanning (mounted sampleVideo) = false ∧
  captureImage (DataUrl sampleUrl) (mounted sampleVideo) =
    Returns tt (mounted sampleVideo).
Proof.
  split; [reflexivity|].
  apply (captureImage_idle (DataUrl sampleUrl) (mounted sampleVideo)).
  reflexivity.
Defined.

Lemma startsWith_app (w s : string) : startsWith w (w +:+ s) = true.
Proof.
  induction w as [|a w IH]; simpl; [done|].
  by rewrite Ascii.eqb_refl.
Qed.

Lemma startsWith_spec (w s : string) :
  startsWith w s = true ↔ ∃ post, s = w +:+ post.
Proof.
  split.
  - revert s. induction w as [|a w IH]; intros s H;
      simpl in *.
    + by exists s.
    + destruct s as [|b s]; [done|]. apply andb_true_iff in H as [Hab Hw].
      apply Ascii.eqb_eq in Hab as ->. destruct (IH _ Hw) as [post ->].
      by exists post.
  - intros [post ->]. apply startsWith_app.
Qed.

Lemma includes_start (w s : string) :
  startsWith w s = true → includes w s = true.
Proof. intros H. destruct s; simpl; by rewrite H. Qed.

Lemma includes_spec (w s : string) :
  includes w s = true ↔ ∃ pre post, s = pre +:+ w +:+ post.
Proof.
  split.
  - induction s as [|b s IH]; simpl; intros H.
    + rewrite orb_false_r in H. apply startsWith_spec in H as [post ->].
      by exists "", post.
    + apply orb_true_iff in H as [H|H].
      * apply startsWith_spec in H as [post ->]. by exists "", post.
      * destruct (IH H) as (pre & post & ->). by exists (String b pre), post.
  - intros (pre & post & ->). induction pre as [|b pre IH].
    + apply includes_start.
      exact (startsWith_app w post).
    + simpl. rewrite IH. apply orb_true_r.
Qed.

(** C9, as stated, fails: an image captured at clock reading 1000 and
    downloaded at clock reading 2000 is saved as capture-2000.png, a name
    that does not contain the time of the capture. *)
Lemma download_name_ignores_capture_time :
  let p := run captureThenDownload scanningPage in
  capturedImage p = sampleUrl ∧
  saved p = [{| href := sampleUrl; download := "capture-2000.png" |}] ∧
  includes (show_int 1000) "capture-2000.png" = false.
Proof. vm_compute. done. Qed.

(** C9, amended: when an image is held, [downloadImage] hands the browser
    one file whose content is the image and whose name is capture-, the
    clock reading at the time of the download, and .png; nothing else
    changes.  When no image is held the page, and so the list of saved
    files, is unchanged. *)
Theorem downloadImage_spec (now : Z) (p : Page) :
  (capturedImage p ≠ "" →
     ∃ name,
       downloadImage now p =
         Returns tt (setSaved (saved p ++
                                 [{| href := capturedImage p;
                                     download := name |}]) p) ∧
       name = "capture-" +:+ show_int now +:+ ".png" ∧
       includes (show_int now) name = true) ∧
  (capturedImage p = "" → downloadImage now p = Returns tt p).
Proof.
  unfold downloadImage, bind, gets, modify. cbn. split.
  - intros Hne. apply String.eqb_neq in Hne. rewrite Hne.
    eexists. split_and!; try reflexivity.
    apply includes_spec. by exists "capture-", ".png".
  - intros ->. done.
Qed.

Lemma downloadImage_spec_witness :
  (∃ name,
     downloadImage 1700000000000 (setCapturedImage sampleUrl scanningPage) =
       Returns tt
         (setSaved [{| href := sampleUrl; download := name |}]
            (setCapturedImage sampleUrl scanningPage)) ∧
     name = "capture-1700000000000.png" ∧
     includes "1700000000000" name = true) ∧
  downloadImage 1700000000000 scanningPage = Returns tt scanningPage.
Proof.
  split.
  - apply (proj1 (downloadImage_spec 1700000000000
                    (setCapturedImage sampleUrl scanningPage))).
    discriminate.
  - apply (proj2 (downloadImage_spec 1700000000000 scanningPage)).
    reflexivity.
Defined.

(** ** Default device *)

Example rearCamera_labels :
  rearCamera "Back Camera (environment)" = true ∧
  rearCamera "REAR cam" = true ∧
  rearCamera "camera2 0, facing Environment" = true ∧
  rearCamera "Front Camera" = false ∧
  rearCamera "" = false.
Proof. vm_compute. done. Qed.

(** The test finds one of the three words somewhere in the lowered label. *)
Lemma rearCamera_spec (lbl : string) :
  rearCamera lbl = true ↔
  ∃ w pre post, w ∈ ["back"; "rear"; "environment"] ∧
                lower lbl = pre +:+ w +:+ post.
Proof.
  unfold rearCamera. rewrite existsb_exists. split.
  - intros (w & Hin & H). apply includes_spec in H as (pre & post & H).
    exists w, pre, post. split; [by apply list_elem_of_In|done].
  - intros (w & pre & post & Hin & H). exists w.
    split; [by apply list_elem_of_In|].
    apply includes_spec. by exists pre, post.
Qed.

Lemma find_first {A} (f : A → bool) (pre : list A) (d : A) (post : list A) :
  Forall (fun x => f x = false) pre → f d = true →
  find f (pre ++ d :: post) = Some d.
Proof.
  intros Hpre Hd. induction Hpre as [|x pre Hx _ IH]; cbn.
  - by rewrite Hd.
  - by rewrite Hx.
Qed.

Lemma find_none {A} (f : A → bool) (l : list A) :
  Forall (fun x => f x = false) l → find f l = None.
Proof. induction 1 as [|x l Hx _ IH]; cbn; [done|]. by rewrite Hx. Qed.

(** [defaultDeviceId] on any list: when some label matches, the default is
    the device id of the first matching camera if that id is not empty, and
    the id of the first camera of the list if it is empty; when no label
    matches, the default is the id of the first camera; for the empty list
    there is no default. *)
Lemma defaultDeviceId_spec (videoInputs : list MediaDeviceInfo) :
  (∀ pre d post,
     videoInputs = pre ++ d :: post →
     Forall (fun x => rearCamera (label x) = false) pre →
     rearCamera (label d) = true →
     defaultDeviceId videoInputs =
       if String.eqb (deviceId d) "" then deviceId <$> head videoInputs
       else Some (deviceId d)) ∧
  (Forall (fun x => rearCamera (label x) = false) videoInputs →
     defaultDeviceId videoInputs = deviceId <$> head videoInputs) ∧
  (videoInputs = [] → defaultDeviceId videoInputs = None).
Proof.
  split_and!.
  - intros pre d post -> Hpre Hd. unfold defaultDeviceId.
    rewrite (find_first _ _ _ _ Hpre Hd). unfold js_or; cbn.
    by destruct (String.eqb (deviceId d) "").
  - intros Hall. unfold defaultDeviceId. by rewrite (find_none _ _ Hall).
  - by intros ->.
Qed.

Lemma rearCamera_labelled (lbl : string) : rearCamera lbl = true → lbl ≠ "".
Proof. by intros H ->. Qed.

(** C4: default device selection.  The platform exposes a device's label and
    its id together, so a camera that has a label has an id.  For every such
    list of video inputs: if some label matches, the default is the id of the
    first matching camera; if none matches, it is the id of the first camera;
    for the empty list there is no default. *)
Theorem defaultDeviceId_first_match (videoInputs : list MediaDeviceInfo) :
  Forall (fun d => label d ≠ "" → deviceId d ≠ "") videoInputs →
  (∀ pre d post,
     videoInputs = pre ++ d :: post →
     Forall (fun x => rearCamera (label x) = false) pre →
     rearCamera (label d) = true →
     defaultDeviceId videoInputs = Some (deviceId d)) ∧
  (Forall (fun x => rearCamera (label x) = false) videoInputs →
     defaultDeviceId videoInputs = deviceId <$> head videoInputs) ∧
  (videoInputs = [] → defaultDeviceId videoInputs = None).
Proof.
  intros Hids. destruct (defaultDeviceId_spec videoInputs) as (H1 & H2 & H3).
  split_and!; [|done|done].
  intros pre d post E Hpre Hd. rewrite (H1 pre d post E Hpre Hd).
  assert (Hid : deviceId d ≠ "").
  { rewrite Forall_forall in Hids. apply Hids.
    - rewrite E. apply elem_of_app. right. left.
    - by apply rearCamera_labelled. }
  apply String.eqb_neq in Hid. by rewrite Hid.
Qed.

Lemma defaultDeviceId_first_match_witness :
  defaultDeviceId frontAndBack = Some "CamB" ∧
  defaultDeviceId [cam "CamA" "Front Camera"; cam "CamC" "USB Camera"] =
    Some "CamA" ∧
  defaultDeviceId [] = None.
Proof.
  split_and!.
  - apply (proj1 (defaultDeviceId_first_match frontAndBack
                    ltac:(repeat constructor; discriminate))
             [cam "CamA" "Front Camera"]
             (cam "CamB" "Back Camera (environment)") []).
    + reflexivity.
    + repeat constructor.
    + reflexivity.
  - apply (proj1 (proj2 (defaultDeviceId_first_match
                           [cam "CamA" "Front Camera"; cam "CamC" "USB Camera"]
                           ltac:(repeat constructor; discriminate)))).
    repeat constructor.
  - apply (proj2 (proj2 (defaultDeviceId_first_match []
                           ltac:(constructor)))). reflexivity.
Defined.

(** ** Device change *)

(** X14: the path the comment on line 63 describes: when the previous run of
    the effect returned its cleanup, a change to a new device resets the
    reader before it starts the new loop, and at most one loop is bound
    afterwards if the reset released the old one. *)
Lemma handleDeviceChange_stops_first (value : string) (r : ResetOutcome)
    (o : DecodeOutcome) (p : Page) (rd : Reader) (v : Video) :
  readerRef p = Some rd → videoRef p = Some v → effectCleanup p = true →
  value ≠ "" → selectedDeviceId p ≠ Some value →
  let p' := final (handleDeviceChange value r o p) in
  readerCalls p' = calls rd ++ [CallReset; CallDecode (Some value)] ∧
  (releases r = true → (length (boundLoops p') ≤ 1)%nat).
Proof.
  intros Hr Hv Hc Hne Hsel.
  unfold handleDeviceChange, changeSelectedDeviceId, bind, gets, modify. cbn.
  apply String.eqb_neq in Hne. rewrite Hne.
  destruct (decide (Some value = selectedDeviceId p)) as [E|_];
    [by rewrite <- E in Hsel|].
  rewrite Hc, stopScanning_eq. cbn.
  unfold selectedDeviceEffect, bind, gets. cbn. rewrite Hne. cbn.
  unfold startScanning, bind, gets. cbn. rewrite Hr, Hv. cbn.
  destruct o as [s|e|]; cbn; rewrite <- app_assoc; (split; [done|]);
    intros ->; cbn; lia.
Qed.

(** What [startScanning] never touches. *)
Lemma startScanning_frame (o : DecodeOutcome) (dev : option string) (p : Page) :
  let p' := final (startScanning o dev p) in
  cameras p' = cameras p ∧ selectedDeviceId p' = selectedDeviceId p ∧
  effectCleanup p' = effectCleanup p ∧ capturedImage p' = capturedImage p ∧
  saved p' = saved p ∧ ended p' = ended p.
Proof.
  unfold startScanning, bind, gets. cbn.
  destruct (videoRef p), (readerRef p), o; cbn; done.
Qed.

(** The scenario of the specification up to the device change: the rear
    camera is the default and is scanned, the payload is displayed; the
    change resets the reader, starts the new loop and, through
    [startScanning], clears the displayed payload. *)
Example decodeThenSwitch_run :
  let p1 := run (take 2 decodeThenSwitch) (mounted sampleVideo) in
  let p2 := run decodeThenSwitch (mounted sampleVideo) in
  (selectedDeviceId p1 = Some "CamB" ∧ boundLoops p1 = [Some "CamB"] ∧
   resultText p1 = "HELLO") ∧
  (selectedDeviceId p2 = Some "CamA" ∧ boundLoops p2 = [Some "CamA"] ∧
   readerCalls p2 =
     [CallDecode (Some "CamB"); CallReset; CallDecode (Some "CamA")] ∧
   resultText p2 = "" ∧ bool_decide (ended p2 = {[0; 1]}) = true).
Proof. vm_compute. done. Qed.

(** ** Invariants along runs *)



#[local] Arguments stopScanning : simpl never.

#[local] Arguments startScanning : simpl never.

Lemma startScanning_returns (o : DecodeOutcome) (dev : option string) (p : Page) :
  startScanning o dev p = Returns tt (final (startScanning o dev p)).
Proof.
  unfold startScanning, bind, gets. cbn.
  destruct (videoRef p), (readerRef p), o; reflexivity.
Qed.

Lemma stopScanning_returns (o : ResetOutcome) (p : Page) :
  stopScanning o p = Returns tt (final (stopScanning o p)).
Proof. by rewrite stopScanning_eq. Qed.

(** The render after a selection change, as a function on pages. *)
Lemma changeSelectedDeviceId_eq (new : option string) (r : ResetOutcome)
    (o : DecodeOutcome) (p : Page) :
  final (changeSelectedDeviceId new r o p) =
  if decide (new = selectedDeviceId p) then p
  else
    let p1 := setSelectedDeviceId new p in
    let p2 := if effectCleanup p then final (stopScanning r p1) else p1 in
    if truthy new then setEffectCleanup true (final (startScanning o new p2))
    else setEffectCleanup false p2.
Proof.
  unfold changeSelectedDeviceId, bind, gets, modify. cbn.
  destruct (decide (new = selectedDeviceId p)); [done|]. cbn.
  destruct (effectCleanup p).
  - rewrite stopScanning_returns. unfold selectedDeviceEffect, bind, gets.
    rewrite stopScanning_eq. cbn.
    destruct (truthy new); [|done]. by rewrite startScanning_returns.
  - unfold ret, selectedDeviceEffect, bind, gets. cbn.
    destruct (truthy new); [|done]. by rewrite startScanning_returns.
Qed.

(** Enumeration stores the video inputs, selects their default device and
    stops the tracks of the temporary stream, whatever the page was. *)
Lemma initDevices_selects_default (tmp : MediaStream)
    (devices : list MediaDeviceInfo) (r : ResetOutcome) (o : DecodeOutcome)
    (p : Page) :
  let vs := filter (fun d => kind d = "videoinput") devices in
  let p' := final (initDevices false (Enumerated tmp devices) r o p) in
  cameras p' = vs ∧
  selectedDeviceId p' = defaultDeviceId vs ∧
  Forall (fun t => t ∈ ended p') (getTracks tmp).
Proof.
  cbn zeta. unfold initDevices, bind, modify.
  rewrite forEach_track_stop. cbn [final].
  set (vs := filter _ devices). set (q := setCameras vs _).
  assert (Hq : Forall (fun t => t ∈ ended q) (getTracks tmp)).
  { apply Forall_forall. intros t Ht. cbn.
    apply elem_of_union_l. by apply elem_of_list_to_set. }
  rewrite changeSelectedDeviceId_eq.
  destruct (decide (defaultDeviceId vs = selectedDeviceId q)) as [E|_];
    [done|]. cbn zeta.
  set (q1 := setSelectedDeviceId (defaultDeviceId vs) q).
  assert (H2 : ∀ q2, q2 = (if effectCleanup q
                           then final (stopScanning r q1) else q1) →
               cameras q2 = vs ∧ selectedDeviceId q2 = defaultDeviceId vs ∧
               Forall (fun t => t ∈ ended q2) (getTracks tmp)).
  { intros q2 ->. destruct (effectCleanup q); [|done].
    rewrite stopScanning_eq. cbn. split_and!; try done.
    eapply Forall_impl; [exact Hq|]. intros t Ht. cbn in Ht.
    by apply elem_of_union_r. }
  specialize (H2 _ eq_refl). destruct H2 as (C & S & T).
  destruct (truthy (defaultDeviceId vs)); [|done].
  match goal with |- context [startScanning o ?d ?q2] =>
    destruct (startScanning_frame o d q2) as (F1 & F2 & _ & _ & _ & F6) end.
  unfold setEffectCleanup; cbn [cameras selectedDeviceId ended].
  by rewrite F1, F2, F6.
Qed.



Lemma truthy_Some (s : string) : s ≠ "" → truthy (Some s) = true.
Proof. intros H. cbn. by apply String.eqb_neq in H as ->. Qed.






Lemma RefInv_ext (p q : Page) :
  videoRef q = videoRef p → readerRef q = readerRef p → RefInv p → RefInv q.
Proof. unfold RefInv. by intros -> ->. Qed.

Lemma stopScanning_RefInv (o : ResetOutcome) (p : Page) :
  RefInv p → RefInv (final (stopScanning o p)).
Proof.
  intros [Hv Hr]. rewrite stopScanning_eq. unfold RefInv. cbn.
  by rewrite !fmap_is_Some.
Qed.

Lemma startScanning_RefInv (o : DecodeOutcome) (dev : option string) (p : Page) :
  RefInv p → RefInv (final (startScanning o dev p)).
Proof.
  intros [[v Hv] [r Hr]]. unfold startScanning, bind, gets, RefInv. cbn.
  rewrite Hv, Hr. destruct o; cbn; eauto.
Qed.

Lemma changeSelectedDeviceId_RefInv (new : option string) (r : ResetOutcome)
    (o : DecodeOutcome) (p : Page) :
  RefInv p → RefInv (final (changeSelectedDeviceId new r o p)).
Proof.
  intros HI. rewrite changeSelectedDeviceId_eq.
  destruct (decide _); [done|]. cbn zeta.
  assert (H2 : RefInv (if effectCleanup p
                       then final (stopScanning r (setSelectedDeviceId new p))
                       else setSelectedDeviceId new p)).
  { destruct (effectCleanup p); [apply stopScanning_RefInv|]; exact HI. }
  destruct (truthy new); [|exact H2].
  by apply (startScanning_RefInv o new) in H2.
Qed.

Lemma step_RefInv (p : Page) (tev : Z * Event) :
  RefInv p → RefInv (step p tev).
Proof.
  destruct tev as [now ev]. unfold step. cbn [fst snd].
  intros HI. destruct (enabled ev p); [|done].
  destruct ev as [io r o|o|r|value r o|res err|c| |]; cbn [handle].
  - destruct io as [|e|tmp e|tmp devices]; unfold initDevices, bind, modify;
      rewrite ?forEach_track_stop; cbn [final].
    1-3: by eapply RefInv_ext; [..|exact HI].
    by apply changeSelectedDeviceId_RefInv.
  - unfold bind, gets. by apply startScanning_RefInv.
  - by apply stopScanning_RefInv.
  - by apply changeSelectedDeviceId_RefInv.
  - unfold onDecode, bind, modify, ret.
    destruct res, err as [e|]; try destruct (isNotFound e); cbn;
      by eapply RefInv_ext; [..|exact HI].
  - unfold captureImage, bind, gets, try_catch, modify, throw, ret. cbn.
    destruct (videoRef p) eqn:Ev, (scanning p), c; cbn;
      by eapply RefInv_ext; [..|exact HI].
  - unfold downloadImage, bind, gets, modify, ret. cbn.
    destruct (String.eqb _ _); cbn; by eapply RefInv_ext; [..|exact HI].
  - by eapply RefInv_ext; [..|exact HI].
Qed.

(** X22: from the mounted page on, along every run, both the video surface
    and the reader stay in their refs, so the guard of [startScanning] never
    fires there. *)
Lemma reader_present_after_mount (trace : list (Z * Event)) (v : Video) :
  is_Some (videoRef (run trace (mounted v))) ∧
  is_Some (readerRef (run trace (mounted v))).
Proof.
  assert (H : ∀ p, RefInv p → RefInv (run trace p)).
  { induction trace as [|tev trace IH]; intros p HI; [done|].
    cbn. apply IH. by apply step_RefInv. }
  apply H. split; cbn; eauto.
Qed.

(** ** Further properties of the handlers and of runs *)

(** X1: every decode callback returns.  A result replaces [resultText] with
    its text, an error that is not a [NotFoundException] replaces [error]
    with its description, and both happen when both are given; [scanning],
    the two refs, the selection and the captured image are never touched. *)
Theorem onDecode_effect (res : option DecodeResult) (err : option JsError)
    (p : Page) :
  let p' := final (onDecode res err p) in
  returned (onDecode res err p) = true ∧
  resultText p' = from_option getText (resultText p) res ∧
  error p' =
    match err with
    | Some e => if isNotFound e then error p else describe e
    | None => error p
    end ∧
  scanning p' = scanning p ∧ readerRef p' = readerRef p ∧
  videoRef p' = videoRef p ∧ selectedDeviceId p' = selectedDeviceId p ∧
  capturedImage p' = capturedImage p.
Proof.
  unfold onDecode, bind, modify, ret.
  destruct res as [res|], err as [e|]; try destruct (isNotFound e); cbn; done.
Qed.

(** X2: while scanning with a video surface, [captureImage] returns
    whatever the canvas does: a data URL becomes [capturedImage] and leaves
    [error] alone; a missing 2d context or a throw leaves [capturedImage]
    alone and sets [error] to the fixed message or to the description of the
    throw.  Scanning, the refs and [resultText] are unchanged.  Without a
    video surface the call does nothing, scanning or not. *)
Theorem captureImage_scanning (c : CanvasOutcome) (p : Page) :
  (∀ v, scanning p = true → videoRef p = Some v →
     let p' := final (captureImage c p) in
     returned (captureImage c p) = true ∧
     capturedImage p' =
       match c with DataUrl url => url | _ => capturedImage p end ∧
     error p' =
       match c with
       | NoContext => "Cannot create canvas context"
       | CanvasThrows e => describe e
       | DataUrl _ => error p
       end ∧
     scanning p' = true ∧ readerRef p' = readerRef p ∧
     videoRef p' = videoRef p ∧ resultText p' = resultText p) ∧
  (videoRef p = None → captureImage c p = Returns tt p).
Proof.
  split.
  - intros v Hs Hv. unfold captureImage, bind, gets, try_catch, modify, throw.
    cbn. rewrite Hs, Hv. destruct c; cbn; done.
  - intros Hv. unfold captureImage, bind, gets. cbn. by rewrite Hv.
Qed.

Lemma captureImage_scanning_witness :
  let p' := final (captureImage (DataUrl sampleUrl) scanningPage) in
  capturedImage p' = sampleUrl ∧ error p' = "" ∧ scanning p' = true.
Proof.
  destruct (proj1 (captureImage_scanning (DataUrl sampleUrl) scanningPage)
              {| srcObject := Some (sampleStream 1);
                 videoWidth := 640; videoHeight := 480 |}
              eq_refl eq_refl) as (_ & H1 & H2 & H3 & _).
  exact (conj H1 (conj H2 H3)).
Defined.

(** X3: a successful capture followed by a download saves exactly one more
    file, whose content is the data URL just captured and whose name is
    capture-, the clock reading of the download, .png. *)
Theorem capture_then_download (url : string) (now : Z) (p : Page) (v : Video) :
  scanning p = true → videoRef p = Some v → url ≠ "" →
  let p1 := final (captureImage (DataUrl url) p) in
  let p2 := final (downloadImage now p1) in
  saved p2 =
    saved p ++ [{| href := url;
                   download := "capture-" +:+ show_int now +:+ ".png" |}] ∧
  capturedImage p2 = url.
Proof.
  intros Hs Hv Hu. unfold captureImage, downloadImage, bind, gets, try_catch, modify.
  cbn. rewrite Hs, Hv. cbn. apply String.eqb_neq in Hu. rewrite Hu. cbn. done.
Qed.

Lemma capture_then_download_witness :
  saved (final (downloadImage 1700000000000
                  (final (captureImage (DataUrl sampleUrl) scanningPage)))) =
  [{| href := sampleUrl; download := "capture-1700000000000.png" |}].
Proof.
  apply (capture_then_download sampleUrl 1700000000000 scanningPage
           {| srcObject := Some (sampleStream 1);
              videoWidth := 640; videoHeight := 480 |});
    [reflexivity|reflexivity|discriminate].
Defined.

(** X4: after the Clear button, a download does nothing: no file is saved,
    and both the Download and the Clear button are gone. *)
Theorem clear_then_download (now : Z) (p : Page) :
  let p1 := final (clearImage p) in
  downloadImage now p1 = Returns tt p1 ∧
  saved p1 = saved p ∧
  enabled ClickDownload p1 = false ∧ enabled ClickClear p1 = false.
Proof. cbn. done. Qed.

(** X5: [startScanning] never throws to its caller, whatever the library
    does, and makes at most one call on the reader, the decode call, never a
    reset.  It leaves the camera list, the selection, the captured image,
    the saved files and the stopped tracks as they were. *)
Theorem startScanning_total (o : DecodeOutcome) (dev : option string) (p : Page) :
  let p' := final (startScanning o dev p) in
  startScanning o dev p = Returns tt p' ∧
  (readerCalls p' = readerCalls p ∨
   readerCalls p' = readerCalls p ++ [CallDecode dev]) ∧
  cameras p' = cameras p ∧ selectedDeviceId p' = selectedDeviceId p ∧
  capturedImage p' = capturedImage p ∧ saved p' = saved p ∧
  ended p' = ended p.
Proof.
  cbn zeta. split; [apply startScanning_returns|].
  destruct (startScanning_frame o dev p) as (F1 & F2 & _ & F4 & F5 & F6).
  split; [|done]. clear.
  destruct p as [cs sel sc rt er ci [v|] [rd|] ec en sv], o;
    unfold startScanning, bind, gets, readerCalls; cbn; auto.
Qed.

(** X6: a started scan followed by [stopScanning] leaves no camera in use:
    every track of the stream the library attached is stopped, the surface
    has no stream, [scanning] is false, the reader has seen the decode call
    and then the reset, and no loop is bound if the reset released. *)
Theorem start_then_stop (stream : MediaStream) (dev : option string)
    (r : ResetOutcome) (p : Page) (v : Video) (rd : Reader) :
  videoRef p = Some v → readerRef p = Some rd →
  let p1 := final (startScanning (DecodeStarts stream) dev p) in
  let p2 := final (stopScanning r p1) in
  scanning p1 = true ∧
  scanning p2 = false ∧
  videoRef p2 ≫= srcObject = None ∧
  Forall (fun t => t ∈ ended p2) (getTracks stream) ∧
  readerCalls p2 = calls rd ++ [CallDecode dev; CallReset] ∧
  (releases r = true → boundLoops p2 = []).
Proof.
  intros Hv Hr. cbn zeta. rewrite stopScanning_eq.
  unfold startScanning, bind, gets, attachedTracks, readerCalls, boundLoops.
  cbn. rewrite Hv, Hr. cbn. split_and!; try done.
  - apply Forall_forall. intros t Ht. apply elem_of_union_l.
    by apply elem_of_list_to_set.
  - by rewrite <- app_assoc.
  - by intros ->.
Qed.

Lemma start_then_stop_witness :
  let p1 := final (startScanning (DecodeStarts (sampleStream 1)) (Some "CamB")
                     (mounted sampleVideo)) in
  let p2 := final (stopScanning ResetReturns p1) in
  scanning p1 = true ∧ scanning p2 = false ∧
  videoRef p2 ≫= srcObject = None ∧
  Forall (fun t => t ∈ ended p2) [1] ∧
  readerCalls p2 = [CallDecode (Some "CamB"); CallReset] ∧
  (true = true → boundLoops p2 = []).
Proof.
  apply (start_then_stop (sampleStream 1) (Some "CamB") ResetReturns
           (mounted sampleVideo) sampleVideo {| loops := []; calls := [] |});
    reflexivity.
Defined.

Lemma returned_final (res : Result unit) :
  returned res = true → res = Returns tt (final res).
Proof. by destruct res as [[] q|e q]. Qed.

Lemma changeSelectedDeviceId_returns (new : option string) (r : ResetOutcome)
    (o : DecodeOutcome) (p : Page) :
  changeSelectedDeviceId new r o p =
  Returns tt (final (changeSelectedDeviceId new r o p)).
Proof.
  apply returned_final.
  unfold changeSelectedDeviceId, bind, gets, modify. cbn.
  destruct (decide (new = selectedDeviceId p)); [done|]. cbn.
  destruct (effectCleanup p); [rewrite stopScanning_eq|];
    unfold ret, selectedDeviceEffect, bind, gets; cbn;
    (destruct (truthy new); [|done]); by rewrite startScanning_returns.
Qed.

Lemma changeSelectedDeviceId_frame (new : option string) (r : ResetOutcome)
    (o : DecodeOutcome) (p : Page) :
  let p' := final (changeSelectedDeviceId new r o p) in
  selectedDeviceId p' = new ∧ cameras p' = cameras p ∧
  capturedImage p' = capturedImage p ∧ saved p' = saved p ∧
  ended p ⊆ ended p'.
Proof.
  cbn zeta. rewrite changeSelectedDeviceId_eq.
  destruct (decide (new = selectedDeviceId p)) as [->|_]; [done|]. cbn zeta.
  set (p1 := setSelectedDeviceId new p).
  assert (H2 : ∀ p2, p2 = (if effectCleanup p
                           then final (stopScanning r p1) else p1) →
               selectedDeviceId p2 = new ∧ cameras p2 = cameras p ∧
               capturedImage p2 = capturedImage p ∧ saved p2 = saved p ∧
               ended p ⊆ ended p2).
  { intros p2 ->. destruct (effectCleanup p); [|done].
    rewrite stopScanning_eq. cbn. split_and!; try done.
    apply union_subseteq_r. }
  specialize (H2 _ eq_refl). destruct H2 as (S1 & S2 & S3 & S4 & S5).
  destruct (truthy new); [|done].
  match goal with |- context [startScanning o ?d ?q2] =>
    destruct (startScanning_frame o d q2) as (F1 & F2 & _ & F4 & F5 & F6) end.
  unfold setEffectCleanup;
    cbn [cameras selectedDeviceId ended capturedImage saved].
  by rewrite F1, F2, F4, F5, F6.
Qed.

(** X8: [initDevices] never throws, and whenever it acquired the temporary
    stream, every track of that stream is stopped when it is done: after a
    failed enumeration, after a successful one, cancelled or not. *)
Theorem initDevices_releases_temporary_stream (cancelled : bool)
    (io : InitOutcome) (r : ResetOutcome) (o : DecodeOutcome) (p : Page) :
  let res := initDevices cancelled io r o p in
  returned res = true ∧
  Forall (fun t => t ∈ ended (final res)) (temporaryTracks io).
Proof.
  cbn zeta.
  assert (Hin : ∀ tmp q, Forall (fun t => t ∈ list_to_set (getTracks tmp) ∪ ended q)
                  (getTracks tmp)).
  { intros tmp q. apply Forall_forall. intros t Ht. apply elem_of_union_l.
    by apply elem_of_list_to_set. }
  destruct io as [|e|tmp e|tmp devices], cancelled;
    unfold initDevices, bind, modify, ret; rewrite ?forEach_track_stop;
    cbn [final returned temporaryTracks]; try (split; [done|]; try done).
  1-3: apply Hin.
  rewrite changeSelectedDeviceId_returns. cbn [final returned]. split; [done|].
  match goal with |- context [changeSelectedDeviceId ?n r o ?q] =>
    destruct (changeSelectedDeviceId_frame n r o q) as (_ & _ & _ & _ & Hsub) end.
  eapply Forall_impl; [apply (Hin tmp p)|]. intros t Ht. apply Hsub. exact Ht.
Qed.

(** X9: a cancelled [initDevices] changes nothing on the page beyond
    stopping the tracks of the temporary stream, with one exception: the
    message for a browser without camera access is set even when cancelled. *)
Theorem initDevices_cancelled (io : InitOutcome) (r : ResetOutcome)
    (o : DecodeOutcome) (p : Page) :
  final (initDevices true io r o p) =
  match io with
  | NoGetUserMedia =>
      setError "This browser does not support camera access." p
  | _ => setEnded (list_to_set (temporaryTracks io) ∪ ended p) p
  end.
Proof.
  destruct io; unfold initDevices, bind, modify, ret;
    rewrite ?forEach_track_stop; cbn; try done.
  destruct p; unfold setEnded; cbn. by rewrite (left_id_L ∅ (∪)).
Qed.

(** X10: when [getUserMedia] or [enumerateDevices] rejects and the run is
    not cancelled, [error] is the description of the rejection, and the
    camera list, the selection, scanning, the refs and [resultText] are as
    before. *)
Theorem initDevices_failure (io : InitOutcome) (e : JsError)
    (r : ResetOutcome) (o : DecodeOutcome) (p : Page) :
  (∃ tmp, io = GetUserMediaRejects e ∨ io = EnumerateRejects tmp e) →
  let p' := final (initDevices false io r o p) in
  error p' = describe e ∧
  cameras p' = cameras p ∧ selectedDeviceId p' = selectedDeviceId p ∧
  scanning p' = scanning p ∧ readerRef p' = readerRef p ∧
  videoRef p' = videoRef p ∧ resultText p' = resultText p.
Proof.
  intros (tmp & [-> | ->]); unfold initDevices, bind, modify;
    rewrite ?forEach_track_stop; cbn; done.
Qed.

Lemma initDevices_failure_witness :
  let p' := final (initDevices false (GetUserMediaRejects deniedError)
                     ResetReturns (DecodeStarts (sampleStream 1))
                     (mounted sampleVideo)) in
  error p' = "Permission denied" ∧ cameras p' = [] ∧
  selectedDeviceId p' = None ∧ scanning p' = false.
Proof.
  destruct (initDevices_failure (GetUserMediaRejects deniedError) deniedError
              ResetReturns (DecodeStarts (sampleStream 1))
              (mounted sampleVideo)
              (ex_intro _ (sampleStream 0) (or_introl eq_refl)))
    as (H1 & H2 & H3 & H4 & _).
  exact (conj H1 (conj H2 (conj H3 H4))).
Defined.

Lemma defaultDeviceId_listed (vs : list MediaDeviceInfo) (id : string) :
  defaultDeviceId vs = Some id → id ∈ deviceId <$> vs.
Proof.
  unfold defaultDeviceId, js_or.
  destruct (find _ vs) as [d|] eqn:Ef; cbn [fmap option_fmap option_map].
  - apply find_some in Ef as [Hin _]. apply list_elem_of_In in Hin.
    destruct (truthy (Some (deviceId d))).
    + intros [= <-]. by apply list_elem_of_fmap_2.
    + destruct vs as [|d0 vs]; [done|]. cbn. intros [= <-]. left.
  - destruct vs as [|d0 vs]; [done|]. cbn. intros [= <-]. left.
Qed.

(** X11: after a successful enumeration the camera list is exactly the
    enumerated devices of kind videoinput, in their order; the selection is
    the default device of that list, and when it is set it is the id of a
    listed camera. *)
Theorem initDevices_enumerated (tmp : MediaStream)
    (devices : list MediaDeviceInfo) (r : ResetOutcome) (o : DecodeOutcome)
    (p : Page) :
  let p' := final (initDevices false (Enumerated tmp devices) r o p) in
  (∀ d, d ∈ cameras p' ↔ d ∈ devices ∧ kind d = "videoinput") ∧
  cameras p' `sublist_of` devices ∧
  selectedDeviceId p' = defaultDeviceId (cameras p') ∧
  (∀ id, selectedDeviceId p' = Some id → id ∈ deviceId <$> cameras p').
Proof.
  cbn zeta.
  destruct (initDevices_selects_default tmp devices r o p) as (Hc & Hs & _).
  rewrite Hs, Hc. split_and!.
  - intros d. rewrite list_elem_of_filter. tauto.
  - apply sublist_filter.
  - done.
  - intros id. apply defaultDeviceId_listed.
Qed.

Lemma initDevices_enumerated_witness :
  "CamB" ∈ deviceId <$>
    cameras (final (initDevices false
                      (Enumerated (sampleStream 0) (micOnly ++ frontAndBack))
                      ResetReturns (DecodeStarts (sampleStream 1))
                      (mounted sampleVideo))).
Proof.
  apply (proj2 (proj2 (proj2
           (initDevices_enumerated (sampleStream 0) (micOnly ++ frontAndBack)
              ResetReturns (DecodeStarts (sampleStream 1))
              (mounted sampleVideo))))).
  vm_compute. reflexivity.
Defined.

(** X12: when enumeration yields no video input, the camera list is empty,
    nothing is selected, and neither the Start button nor the camera
    selector is enabled. *)
Theorem initDevices_no_cameras (tmp : MediaStream)
    (devices : list MediaDeviceInfo) (r : ResetOutcome) (o : DecodeOutcome)
    (p : Page) :
  Forall (fun d => kind d ≠ "videoinput") devices →
  let p' := final (initDevices false (Enumerated tmp devices) r o p) in
  cameras p' = [] ∧ selectedDeviceId p' = None ∧
  (∀ o', enabled (ClickStart o') p' = false) ∧
  (∀ value r' o', enabled (SelectDevice value r' o') p' = false).
Proof.
  intros Hall. cbn zeta.
  assert (E : filter (fun d => kind d = "videoinput") devices = []).
  { induction Hall as [|d ds Hd _ IH]; [done|].
    rewrite filter_cons_False; [exact IH|exact Hd]. }
  destruct (initDevices_selects_default tmp devices r o p) as (Hc & Hs & _).
  rewrite E in Hc, Hs. unfold enabled. rewrite Hc, Hs. cbn [isEmpty].
  split_and!; try done. intros. by rewrite orb_true_r.
Qed.

Lemma initDevices_no_cameras_witness :
  let p' := final (initDevices false (Enumerated (sampleStream 0) micOnly)
                     ResetReturns (DecodeStarts (sampleStream 1))
                     (mounted sampleVideo)) in
  cameras p' = [] ∧ selectedDeviceId p' = None ∧
  (∀ o', enabled (ClickStart o') p' = false) ∧
  (∀ value r' o', enabled (SelectDevice value r' o') p' = false).
Proof.
  apply (initDevices_no_cameras (sampleStream 0) micOnly ResetReturns
           (DecodeStarts (sampleStream 1)) (mounted sampleVideo)).
  repeat constructor; discriminate.
Defined.

(** X13: on a page with both refs set and nothing selected yet, an
    enumeration whose default device has a non-empty id selects it and
    starts scanning on it at once: the reader gets one decode call for that
    device and the cleanup is registered.  If the library starts the loop,
    [scanning] is true and the loop is bound; if it throws, [scanning] is
    false and [error] describes the throw; if it fails after the call,
    [scanning] is true and no loop was added. *)
Theorem initDevices_auto_starts (tmp : MediaStream)
    (devices : list MediaDeviceInfo) (r : ResetOutcome) (o : DecodeOutcome)
    (p : Page) (v : Video) (rd : Reader) (id : string) :
  videoRef p = Some v → readerRef p = Some rd →
  selectedDeviceId p = None → effectCleanup p = false →
  defaultDeviceId (videoInputsOf devices) = Some id → id ≠ "" →
  let p' := final (initDevices false (Enumerated tmp devices) r o p) in
  selectedDeviceId p' = Some id ∧ effectCleanup p' = true ∧
  readerCalls p' = calls rd ++ [CallDecode (Some id)] ∧
  resultText p' = "" ∧
  match o with
  | DecodeStarts stream =>
      scanning p' = true ∧ error p' = "" ∧
      boundLoops p' = loops rd ++ [Some id] ∧
      videoRef p' ≫= srcObject = Some stream
  | DecodeThrows e =>
      scanning p' = false ∧ error p' = describe e ∧
      boundLoops p' = loops rd
  | DecodeFailsLater =>
      scanning p' = true ∧ error p' = "" ∧
      boundLoops p' = loops rd ∧ videoRef p' = Some v
  end.
Proof.
  intros Hv Hr Hsel Hc Hd Hid. cbn zeta. unfold videoInputsOf in Hd.
  unfold initDevices, bind, modify. rewrite forEach_track_stop. cbn [final].
  rewrite changeSelectedDeviceId_eq. rewrite Hd. cbn [selectedDeviceId setCameras setEnded].
  rewrite Hsel. destruct (decide (Some id = None)) as [|_]; [done|]. cbn zeta.
  cbn [effectCleanup setCameras setEnded setSelectedDeviceId]. rewrite Hc.
  rewrite (truthy_Some _ Hid).
  unfold startScanning, bind, gets, readerCalls, boundLoops. cbn. rewrite Hv, Hr.
  destruct o; cbn; done.
Qed.

Lemma initDevices_auto_starts_witness :
  let p' := final (initDevices false (Enumerated (sampleStream 0) frontAndBack)
                     ResetReturns (DecodeStarts (sampleStream 1))
                     (mounted sampleVideo)) in
  selectedDeviceId p' = Some "CamB" ∧ effectCleanup p' = true ∧
  readerCalls p' = [CallDecode (Some "CamB")] ∧ resultText p' = "" ∧
  scanning p' = true ∧ error p' = "" ∧ boundLoops p' = [Some "CamB"] ∧
  videoRef p' ≫= srcObject = Some (sampleStream 1).
Proof.
  apply (initDevices_auto_starts (sampleStream 0) frontAndBack ResetReturns
           (DecodeStarts (sampleStream 1)) (mounted sampleVideo) sampleVideo
           {| loops := []; calls := [] |} "CamB");
    first [reflexivity | discriminate].
Defined.

(** X15: a change to another device, from a page whose effect cleanup is
    registered and with a reset that releases, stops the tracks of the
    attached stream, selects the new device and clears [resultText].  If the
    library starts the loop, exactly the new device's loop is bound,
    [scanning] is true and [error] is cleared; if it throws, no loop is bound,
    no stream is attached, [scanning] is false and [error] describes the
    throw; if it fails after the call, no loop is bound, no stream is
    attached, and [scanning] is true with [error] cleared. *)
Theorem handleDeviceChange_switch (value : string) (r : ResetOutcome)
    (o : DecodeOutcome) (p : Page) (rd : Reader) (v : Video) :
  readerRef p = Some rd → videoRef p = Some v → effectCleanup p = true →
  value ≠ "" → selectedDeviceId p ≠ Some value → releases r = true →
  let p' := final (handleDeviceChange value r o p) in
  selectedDeviceId p' = Some value ∧ effectCleanup p' = true ∧
  resultText p' = "" ∧
  Forall (fun t => t ∈ ended p') (attachedTracks p) ∧
  match o with
  | DecodeStarts stream =>
      scanning p' = true ∧ error p' = "" ∧
      boundLoops p' = [Some value] ∧
      videoRef p' ≫= srcObject = Some stream
  | DecodeThrows e =>
      scanning p' = false ∧ error p' = describe e ∧
      boundLoops p' = [] ∧ videoRef p' ≫= srcObject = None
  | DecodeFailsLater =>
      scanning p' = true ∧ error p' = "" ∧
      boundLoops p' = [] ∧ videoRef p' ≫= srcObject = None
  end.
Proof.
  intros Hr Hv Hc Hne Hsel Hrel. cbn zeta.
  assert (Ht : Forall (fun t => t ∈ list_to_set (attachedTracks p) ∪ ended p)
                 (attachedTracks p)).
  { apply Forall_forall. intros t Ht. apply elem_of_union_l.
    by apply elem_of_list_to_set. }
  unfold handleDeviceChange.
  apply String.eqb_neq in Hne as Hne'. rewrite Hne'.
  rewrite changeSelectedDeviceId_eq.
  destruct (decide (Some value = selectedDeviceId p)) as [E|_];
    [by rewrite <- E in Hsel|].
  cbn zeta. rewrite Hc, stopScanning_eq, (truthy_Some _ Hne).
  unfold startScanning, bind, gets, boundLoops, afterReset. cbn.
  rewrite Hr, Hv, Hrel. cbn.
  destruct o as [s|e|]; cbn; split_and!; done.
Qed.

Lemma handleDeviceChange_switch_witness :
  let p' := final (handleDeviceChange "CamA" ResetReturns
                     (DecodeThrows busyError) scanningPage) in
  selectedDeviceId p' = Some "CamA" ∧ effectCleanup p' = true ∧
  resultText p' = "" ∧
  Forall (fun t => t ∈ ended p') [1] ∧
  scanning p' = false ∧ error p' = "Could not start video source" ∧
  boundLoops p' = [] ∧ videoRef p' ≫= srcObject = None.
Proof.
  apply (handleDeviceChange_switch "CamA" ResetReturns
           (DecodeThrows busyError) scanningPage
           {| loops := [Some "CamB"]; calls := [CallDecode (Some "CamB")] |}
           {| srcObject := Some (sampleStream 1);
              videoWidth := 640; videoHeight := 480 |});
    first [reflexivity | discriminate].
Defined.

(** X16: choosing the empty value while a device is selected and the
    cleanup is registered stops scanning and starts nothing: the selection
    becomes undefined, the reader gets a reset and no decode call, the
    surface has no stream and its tracks are stopped, and the displayed text
    and error stay. *)
Theorem handleDeviceChange_deselect (r : ResetOutcome) (o : DecodeOutcome)
    (p : Page) :
  effectCleanup p = true → selectedDeviceId p ≠ None →
  let p' := final (handleDeviceChange "" r o p) in
  selectedDeviceId p' = None ∧ effectCleanup p' = false ∧
  scanning p' = false ∧
  readerRef p' = afterReset r <$> readerRef p ∧
  videoRef p' ≫= srcObject = None ∧
  Forall (fun t => t ∈ ended p') (attachedTracks p) ∧
  resultText p' = resultText p ∧ error p' = error p.
Proof.
  intros Hc Hsel. cbn zeta. unfold handleDeviceChange. cbn [String.eqb].
  rewrite changeSelectedDeviceId_eq.
  destruct (decide (None = selectedDeviceId p)) as [E|_]; [done|].
  cbn zeta. rewrite Hc, stopScanning_eq. cbn. split_and!; try done.
  - by destruct (videoRef p).
  - apply Forall_forall. intros t Ht. apply elem_of_union_l.
    by apply elem_of_list_to_set.
Qed.

Lemma handleDeviceChange_deselect_witness :
  let p' := final (handleDeviceChange "" ResetReturns
                     (DecodeStarts (sampleStream 2)) scanningPage) in
  selectedDeviceId p' = None ∧ effectCleanup p' = false ∧
  scanning p' = false.
Proof.
  destruct (handleDeviceChange_deselect ResetReturns
              (DecodeStarts (sampleStream 2)) scanningPage)
    as (H1 & H2 & H3 & _); [reflexivity|discriminate|].
  exact (conj H1 (conj H2 H3)).
Defined.

Lemma lower_app (a b : string) : lower (a +:+ b) = lower a +:+ lower b.
Proof. induction a as [|c a IH]; simpl; [done|]. by rewrite IH. Qed.

Lemma lower_split (s a b : string) :
  lower s = a +:+ b → ∃ a' b', s = a' +:+ b' ∧ lower a' = a ∧ lower b' = b.
Proof.
  revert s. induction a as [|c a IH]; intros s H; simpl in H.
  - by exists "", s.
  - destruct s as [|c' s]; [done|]. simpl in H. injection H as Hc Hs.
    destruct (IH _ Hs) as (a' & b' & -> & Ha & Hb).
    exists (String c' a'), b'. simpl. by rewrite Hc, Ha.
Qed.

(** X17: a label passes the rear-camera test exactly when it contains,
    anywhere, a word that is back, rear or environment up to the case of its
    ASCII letters. *)
Theorem rearCamera_any_case (lbl : string) :
  rearCamera lbl = true ↔
  ∃ pre w post, lbl = pre +:+ w +:+ post ∧
                lower w ∈ ["back"; "rear"; "environment"].
Proof.
  rewrite rearCamera_spec. split.
  - intros (w' & pre' & post' & Hin & H).
    apply lower_split in H as (pre & rest & -> & Hpre & Hrest).
    apply lower_split in Hrest as (w & post & -> & Hw & Hpost).
    exists pre, w, post. by rewrite Hw.
  - intros (pre & w & post & -> & Hin).
    exists (lower w), (lower pre), (lower post). by rewrite !lower_app.
Qed.

Lemma rearCamera_any_case_witness : rearCamera "My REAR cam" = true.
Proof.
  apply (proj2 (rearCamera_any_case "My REAR cam")).
  exists "My ", "REAR", " cam". split; [reflexivity|].
  vm_compute. repeat constructor.
Defined.

Lemma substring_length_le (m : nat) (s : string) :
  (String.length (substring 0 m s) ≤ m)%nat.
Proof.
  revert s. induction m as [|m IH]; intros [|c s]; simpl; try lia.
  specialize (IH s). lia.
Qed.

Lemma substring_short (m : nat) (s : string) :
  (String.length s ≤ m)%nat → substring 0 m s = s.
Proof.
  revert s. induction m as [|m IH]; intros [|c s]; simpl; intros H;
    try done; try lia.
  rewrite IH; [done|lia].
Qed.

Lemma length_append (a b : string) :
  String.length (a +:+ b) = (String.length a + String.length b)%nat.
Proof. induction a as [|c a IH]; simpl; [done|]. by rewrite IH. Qed.

(** X18: the text of a camera option is never empty.  It is the label when
    there is one; otherwise it starts with Camera, is at most 16 characters
    long, and for an id of at most 6 characters it is Camera, the id and
    three dots. *)
Theorem optionLabel_shown (cam : MediaDeviceInfo) :
  optionLabel cam ≠ "" ∧
  (label cam ≠ "" → optionLabel cam = label cam) ∧
  (label cam = "" →
     (String.length (optionLabel cam) ≤ 16)%nat ∧
     startsWith "Camera " (optionLabel cam) = true ∧
     ((String.length (deviceId cam) ≤ 6)%nat →
      optionLabel cam = "Camera " +:+ deviceId cam +:+ "...")).
Proof.
  unfold optionLabel. destruct (String.eqb (label cam) "") eqn:E.
  - apply String.eqb_eq in E. split_and!; [done|done|]. intros _. split_and!.
    + rewrite !length_append.
      pose proof (substring_length_le 6 (deviceId cam)). simpl. lia.
    + done.
    + intros H. by rewrite substring_short.
  - apply String.eqb_neq in E. split_and!; done.
Qed.

Lemma optionLabel_shown_witness :
  optionLabel shortIdCam = "Camera ab12..." ∧
  optionLabel (cam "CamB" "Back Camera") = "Back Camera".
Proof.
  split.
  - apply (proj2 (proj2 (proj2 (proj2 (optionLabel_shown shortIdCam)) eq_refl))).
    vm_compute. repeat constructor.
  - apply (proj1 (proj2 (optionLabel_shown (cam "CamB" "Back Camera")))).
    discriminate.
Defined.

Lemma step_saved (p : Page) (tev : Z * Event) :
  saved (step p tev) = saved p ∨
  (capturedImage p ≠ "" ∧
   saved (step p tev) =
     saved p ++ [{| href := capturedImage p; download := savedName tev.1 |}]).
Proof.
  destruct tev as [now ev]. unfold step. cbn [fst snd].
  destruct (enabled ev p); [|by left].
  destruct ev as [io r o|o|r|value r o|res err|c| |]; cbn [handle].
  - left. destruct io as [|e|tmp e|tmp devices]; unfold initDevices, bind, modify;
      rewrite ?forEach_track_stop; cbn [final]; try done.
    match goal with |- context [changeSelectedDeviceId ?n r o ?q] =>
      by rewrite (proj1 (proj2 (proj2 (proj2 (changeSelectedDeviceId_frame n r o q))))) end.
  - left. unfold bind, gets. cbn [final].
    apply (startScanning_frame o (selectedDeviceId p) p).
  - left. by rewrite stopScanning_eq.
  - left. unfold handleDeviceChange.
    apply (changeSelectedDeviceId_frame _ r o p).
  - left. unfold onDecode, bind, modify, ret.
    by destruct res, err as [e|]; try destruct (isNotFound e).
  - left. unfold captureImage, bind, gets, try_catch, modify, throw, ret. cbn.
    by destruct (videoRef p), (scanning p), c.
  - unfold downloadImage, bind, gets, modify, ret. cbn.
    destruct (String.eqb (capturedImage p) "") eqn:E; [by left|].
    right. by apply String.eqb_neq in E.
  - by left.
Qed.

(** X19: along every run from the mounted page, every file handed to the
    browser has a non-empty content and the name capture-, a clock reading
    of one of the run's events, .png. *)
Theorem saved_files_named (trace : list (Z * Event)) (v : Video) :
  Forall (fun d => href d ≠ "" ∧
                   ∃ now, now ∈ trace.*1 ∧ download d = savedName now)
         (saved (run trace (mounted v))).
Proof.
  assert (H : ∀ T p,
    Forall (fun d => href d ≠ "" ∧ ∃ now, now ∈ T ∧ download d = savedName now)
           (saved p) →
    Forall (fun d => href d ≠ "" ∧
                     ∃ now, now ∈ T ++ trace.*1 ∧ download d = savedName now)
           (saved (run trace p))).
  { induction trace as [|tev trace IH]; intros T p HT.
    - cbn. by rewrite app_nil_r.
    - cbn [run foldl]. rewrite fmap_cons, cons_middle, app_assoc.
      apply IH. destruct (step_saved p tev) as [-> | [Hc ->]].
      + eapply Forall_impl; [exact HT|]. intros d (Hh & now & Hin & Hn).
        split; [done|]. exists now. split; [|done]. apply elem_of_app. by left.
      + apply Forall_app. split.
        * eapply Forall_impl; [exact HT|]. intros d (Hh & now & Hin & Hn).
          split; [done|]. exists now. split; [|done]. apply elem_of_app. by left.
        * apply Forall_singleton. split; [done|]. exists tev.1.
          split; [|done]. apply elem_of_app. right. by apply list_elem_of_singleton. }
  apply (H [] (mounted v)). constructor.
Qed.

(** X20: along every run from the mounted page, a selected device id is
    the id of a camera in the current list. *)
Theorem selection_is_listed (trace : list (Z * Event)) (v : Video) (id : string) :
  selectedDeviceId (run trace (mounted v)) = Some id →
  id ∈ deviceId <$> cameras (run trace (mounted v)).
Proof.
  assert (Hstep : ∀ p tev,
    (∀ i, selectedDeviceId p = Some i → i ∈ deviceId <$> cameras p) →
    (∀ i, selectedDeviceId (step p tev) = Some i →
          i ∈ deviceId <$> cameras (step p tev))).
  { intros p [now ev] HI. unfold step. cbn [fst snd].
    destruct (enabled ev p) eqn:En; [|done].
    destruct ev as [io r o|o|r|value r o|res err|c| |]; cbn [handle].
    - destruct io as [|e|tmp e|tmp devices];
        try (unfold initDevices, bind, modify;
             rewrite ?forEach_track_stop; cbn [final]; exact HI).
      destruct (initDevices_selects_default tmp devices r o p) as (Hc & Hs & _).
      intros i. rewrite Hc, Hs. apply defaultDeviceId_listed.
    - unfold bind, gets. cbn [final].
      destruct (startScanning_frame o (selectedDeviceId p) p) as (-> & -> & _).
      exact HI.
    - rewrite stopScanning_eq. exact HI.
    - cbn in En. apply andb_true_iff in En as [_ Hin].
      apply bool_decide_eq_true in Hin. unfold handleDeviceChange.
      match goal with |- context [changeSelectedDeviceId ?n r o p] =>
        destruct (changeSelectedDeviceId_frame n r o p) as (-> & -> & _) end.
      intros i. destruct (String.eqb value ""); [done|]. by intros [= <-].
    - unfold onDecode, bind, modify, ret.
      by destruct res, err as [e|]; try destruct (isNotFound e).
    - unfold captureImage, bind, gets, try_catch, modify, throw, ret. cbn.
      by destruct (videoRef p), (scanning p), c.
    - unfold downloadImage, bind, gets, modify, ret. cbn.
      by destruct (String.eqb _ _).
    - exact HI. }
  assert (H : ∀ p,
    (∀ i, selectedDeviceId p = Some i → i ∈ deviceId <$> cameras p) →
    (∀ i, selectedDeviceId (run trace p) = Some i →
          i ∈ deviceId <$> cameras (run trace p))).
  { induction trace as [|tev trace IH]; intros p HI; [done|].
    cbn [run foldl]. apply IH. by apply Hstep. }
  apply H. done.
Qed.

Lemma selection_is_listed_witness :
  "CamA" ∈ deviceId <$> cameras (run decodeThenSwitch (mounted sampleVideo)).
Proof.
  apply (selection_is_listed decodeThenSwitch sampleVideo "CamA").
  vm_compute. reflexivity.
Defined.

Lemma handleDeviceChange_stops_first_witness :
  let p' := final (handleDeviceChange "CamA" ResetReturns
                     (DecodeStarts (sampleStream 2)) scanningPage) in
  readerCalls p' =
    [CallDecode (Some "CamB"); CallReset; CallDecode (Some "CamA")] ∧
  (true = true → (length (boundLoops p') ≤ 1)%nat).
Proof.
  apply (handleDeviceChange_stops_first "CamA" ResetReturns
           (DecodeStarts (sampleStream 2)) scanningPage
           {| loops := [Some "CamB"]; calls := [CallDecode (Some "CamB")] |}
           {| srcObject := Some (sampleStream 1);
              videoWidth := 640; videoHeight := 480 |});
    first [reflexivity | discriminate].
Defined.

(** ** Stop before start *)


Lemma run_RefInv (trace : list (Z * Event)) (p : Page) :
  RefInv p → RefInv (run trace p).
Proof.
  revert p. induction trace as [|tev trace IH]; intros p HI; [done|].
  cbn. apply IH. by apply step_RefInv.
Qed.

Lemma startScanning_calls (o : DecodeOutcome) (dev : option string) (p : Page) :
  readerCalls (final (startScanning o dev p)) =
  readerCalls p ++
    match videoRef p, readerRef p with
    | Some _, Some _ => [CallDecode dev]
    | _, _ => []
    end.
Proof.
  destruct p as [cs sel sc rt er ci [v|] [rd|] ec en sv], o;
    unfold startScanning, bind, gets, readerCalls; cbn;
    by rewrite ?app_nil_r.
Qed.










(** C5: on every page the mounted component reaches, when a video surface is
    attached, [startScanning] returns with [resultText] cleared; [error] is
    cleared and [scanning] is true when the call into the library returns,
    and when that call throws, [error] is the description of what was thrown
    and [scanning] is false again. *)
Theorem startScanning_reachable (trace : list (Z * Event)) (v0 : Video)
    (o : DecodeOutcome) (dev : option string) (v : Video) :
  let p := run trace (mounted v0) in
  videoRef p = Some v →
  ∃ p', startScanning o dev p = Returns tt p' ∧
        resultText p' = "" ∧
        match o with
        | DecodeStarts _ | DecodeFailsLater =>
            error p' = "" ∧ scanning p' = true
        | DecodeThrows e =>
            error p' = describe e ∧ scanning p' = false
        end.
Proof.
  cbn zeta. intros Hv.
  destruct (run_RefInv trace (mounted v0)) as [_ [r Hr]].
  { split; cbn; eauto. }
  destruct (proj1 (startScanning_spec o dev _) v r Hv Hr) as (p' & E & Ht & Ho).
  exists p'. split; [done|]. split; [done|].
  destruct o; tauto.
Qed.

Lemma startScanning_reachable_witness :
  let p := run decodeThenSwitch (mounted sampleVideo) in
  (∃ p', startScanning (DecodeThrows busyError) (Some "CamA") p =
           Returns tt p' ∧
         resultText p' = "" ∧
         error p' = "Could not start video source" ∧ scanning p' = false) ∧
  (∃ p', startScanning (DecodeStarts (sampleStream 3)) (Some "CamA") p =
           Returns tt p' ∧
         resultText p' = "" ∧ error p' = "" ∧ scanning p' = true).
Proof.
  split.
  - apply (startScanning_reachable decodeThenSwitch sampleVideo
             (DecodeThrows busyError) (Some "CamA")
             {| srcObject := Some (sampleStream 2);
                videoWidth := 640; videoHeight := 480 |}).
    reflexivity.
  - apply (startScanning_reachable decodeThenSwitch sampleVideo
             (DecodeStarts (sampleStream 3)) (Some "CamA")
             {| srcObject := Some (sampleStream 2);
                videoWidth := 640; videoHeight := 480 |}).
    reflexivity.
Defined.

(** X7: the cleanup of the mount effect as React runs it, with [videoRef]
    already cleared: the track-stopping code of [stopScanning] does not run,
    so the page stops no track; the cleanup sets [scanning] false, resets
    the reader and clears [readerRef], and changes nothing else.  It
    returns, unless a reader exists and its second, unguarded [reset()]
    throws: then the throw escapes and the reader, reset twice, stays in
    the ref. *)
Theorem teardown_at_unmount (r1 r2 : ResetOutcome) (p : Page) :
  videoRef p = None →
  let res := teardown r1 r2 p in
  returned res =
    match readerRef p, r2 with
    | Some _, ResetThrows _ _ => false
    | _, _ => true
    end ∧
  final res =
    setReaderRef
      match readerRef p, r2 with
      | Some rd, ResetThrows _ _ => Some (afterReset r2 (afterReset r1 rd))
      | _, _ => None
      end
      (setScanning false p) ∧
  ended (final res) = ended p.
Proof.
  intros Hv. cbn zeta. unfold teardown, bind. rewrite stopScanning_eq.
  destruct p as [cs sel sc rt er ci vr rr ec en sv]. cbn in Hv. subst vr.
  destruct rr as [rd|], r2 as [|e b]; cbn;
    unfold attachedTracks, setReaderRef, setScanning; cbn;
    rewrite (left_id_L ∅ (∪)); done.
Qed.

Lemma teardown_at_unmount_witness :
  let res := teardown ResetReturns ResetReturns unmountingPage in
  returned res = true ∧
  final res = setReaderRef None (setScanning false unmountingPage) ∧
  ended (final res) = ended scanningPage.
Proof.
  apply (teardown_at_unmount ResetReturns ResetReturns unmountingPage).
  reflexivity.
Defined.

(** On the scanning page, the one track of the attached stream is still
    live after the cleanup. *)
Example unmount_leaves_track_live :
  let p := final (teardown ResetReturns ResetReturns unmountingPage) in
  bool_decide (1 ∈ attachedTracks scanningPage) = true ∧
  bool_decide (1 ∈ ended p) = false.
Proof. vm_compute. done. Qed.

End QrScanPage.
